(** * Mergington High School activities API (src/app.py)

    A shallow embedding of the SQLite-backed service: the two tables, the
    SQL statements the program issues, the connection with its commit
    discipline, [init_db] and the three endpoints [get_activities],
    [signup_for_activity] and [unregister_from_activity].

    Conventions of the embedding.
    - A Python [str] bound to a TEXT column is the byte string of its UTF-8
      encoding, a Rocq [string].  SQLite compares TEXT under the default
      BINARY collation, that is byte by byte: equality is [=] and the order
      is [String.le].
    - A table is the list of its rows in ascending rowid order.  The [id]
      column is INTEGER PRIMARY KEY AUTOINCREMENT, is assigned by the
      engine and is never read by the program ([activity_row_to_dict] and
      the participants queries project it away); AUTOINCREMENT gives a new
      row a rowid above every existing one, so an INSERT appends.
    - Every function takes the store before the call and returns its
      outcome together with the store after the call. *)

From Stdlib Require Import ZArith.
From stdpp Require Import base option list sorting gmap strings.

Local Open Scope Z_scope.
Local Open Scope string_scope.
Local Open Scope list_scope.

(** ** Schema (app.py, lines 36-52) *)

Record activity_row := ActivityRow {
  name : string;
  description : string;
  schedule : string;
  max_participants : Z
}.

Record participant_row := ParticipantRow {
  activity_name : string;
  email : string
}.

#[global] Instance activity_row_eq_dec : EqDecision activity_row.
Proof. solve_decision. Defined.

#[global] Instance participant_row_eq_dec : EqDecision participant_row.
Proof. solve_decision. Defined.

(** The database once both tables exist. *)
Record db := Db {
  tbl_activities : list activity_row;
  tbl_participants : list participant_row
}.

(** The file [data.sqlite] as [init_db] may find it: each table is there
    or not. *)
Record file := File {
  file_activities : option (list activity_row);
  file_participants : option (list participant_row)
}.

Definition no_file : file := File None None.

Definition file_of (d : db) : file :=
  File (Some (tbl_activities d)) (Some (tbl_participants d)).

(** ** Exceptions *)

Inductive exn :=
| HTTPException (status_code : Z) (detail : string)
| IntegrityError.

(** ** The SQL statements of the program *)

(** [CREATE TABLE IF NOT EXISTS]: an absent table is created empty, a
    present one is left as it is. *)
Definition create_table_if_not_exists {A} (t : option (list A)) : list A :=
  default [] t.

Definition create_tables (f : file) : db :=
  Db (create_table_if_not_exists (file_activities f))
     (create_table_if_not_exists (file_participants f)).

(** [SELECT count( * ) as c FROM activities] *)
Definition select_count_activities (d : db) : Z :=
  Z.of_nat (length (tbl_activities d)).

(** [SELECT * FROM activities]: a scan of the table, in rowid order. *)
Definition select_all_activities (d : db) : list activity_row :=
  tbl_activities d.

(** [SELECT * FROM activities WHERE name = ?] followed by [fetchone()]. *)
Definition select_activity_by_name (n : string) (d : db) : option activity_row :=
  head (filter (λ r, name r = n) (tbl_activities d)).

(** [SELECT email FROM participants WHERE activity_name = ?] followed by
    [fetchall()].

    The statement has no ORDER BY, so the order of the rows is the order
    in which the engine visits them.
    - On a table with the schema of lines 45-52,
      [UNIQUE(activity_name, email)] (line 50) makes the engine keep an
      index on that pair of columns, and the engine answers this statement
      from the index alone (the plan is [SEARCH participants USING COVERING
      INDEX sqlite_autoindex_participants_1 (activity_name=?)]): it visits
      the index entries whose first key column equals the argument, which
      the index holds in ascending order of the second key column.
    - A table that holds a pair twice cannot have that constraint: it was
      created under another schema, which [CREATE TABLE IF NOT EXISTS]
      leaves as it is.  There is no such index then, and the engine scans
      the table in rowid order.
    A table whose pairs are pairwise distinct is read as one of the schema
    of lines 45-52. *)
Definition select_emails_by_activity (a : string) (d : db) : list string :=
  let emails := email <$> filter (λ r, activity_name r = a) (tbl_participants d) in
  if decide (NoDup (tbl_participants d)) then merge_sort String.le emails
  else emails.

(** [SELECT 1 FROM participants WHERE activity_name = ? AND email = ?]
    followed by [fetchone()]. *)
Definition select_one_participant (a e : string) (d : db) : option Z :=
  head ((λ _, 1) <$> filter (λ r, activity_name r = a ∧ email r = e) (tbl_participants d)).

(** [INSERT INTO activities (name, description, schedule, max_participants)
    VALUES (?, ?, ?, ?)]; [name] is UNIQUE. *)
Definition insert_activity (r : activity_row) (d : db) : exn + db :=
  if decide (name r ∈ name <$> tbl_activities d) then inl IntegrityError
  else inr (Db (tbl_activities d ++ [r]) (tbl_participants d)).

(** [INSERT INTO participants (activity_name, email) VALUES (?, ?)];
    the pair is UNIQUE. *)
Definition insert_participant (a e : string) (d : db) : exn + db :=
  if decide (ParticipantRow a e ∈ tbl_participants d) then inl IntegrityError
  else inr (Db (tbl_activities d) (tbl_participants d ++ [ParticipantRow a e])).

(** [INSERT OR IGNORE INTO participants (activity_name, email) VALUES (?, ?)] *)
Definition insert_or_ignore_participant (a e : string) (d : db) : db :=
  if decide (ParticipantRow a e ∈ tbl_participants d) then d
  else Db (tbl_activities d) (tbl_participants d ++ [ParticipantRow a e]).

(** [DELETE FROM participants WHERE activity_name = ? AND email = ?] *)
Definition delete_participant (a e : string) (d : db) : db :=
  Db (tbl_activities d)
     (filter (λ r, ¬ (activity_name r = a ∧ email r = e)) (tbl_participants d)).

(** ** Connections (lines 27-30)

    A connection sees its own uncommitted writes in [pending]; [commit]
    makes them the stored state, and closing (or dropping) the connection
    leaves the stored state at the last commit. *)
Record connection := Connection {
  committed : db;
  pending : db
}.

Definition get_db_connection (d : db) : connection := Connection d d.

Definition execute (stmt : db → db) (conn : connection) : connection :=
  Connection (committed conn) (stmt (pending conn)).

Definition commit (conn : connection) : connection :=
  Connection (pending conn) (pending conn).

Definition close (conn : connection) : db := committed conn.

(** ** Seed data (lines 59-114) *)

Record seed_activity := SeedActivity {
  seed_description : string;
  seed_schedule : string;
  seed_max_participants : Z;
  seed_participants : list string
}.

(** The dict literal, in its insertion order. *)
Definition seed_activities : list (string * seed_activity) := [
  ("Chess Club",
   SeedActivity "Learn strategies and compete in chess tournaments"
     "Fridays, 3:30 PM - 5:00 PM" 12
     ["michael@mergington.edu"; "daniel@mergington.edu"]);
  ("Programming Class",
   SeedActivity "Learn programming fundamentals and build software projects"
     "Tuesdays and Thursdays, 3:30 PM - 4:30 PM" 20
     ["emma@mergington.edu"; "sophia@mergington.edu"]);
  ("Gym Class",
   SeedActivity "Physical education and sports activities"
     "Mondays, Wednesdays, Fridays, 2:00 PM - 3:00 PM" 30
     ["john@mergington.edu"; "olivia@mergington.edu"]);
  ("Soccer Team",
   SeedActivity "Join the school soccer team and compete in matches"
     "Tuesdays and Thursdays, 4:00 PM - 5:30 PM" 22
     ["liam@mergington.edu"; "noah@mergington.edu"]);
  ("Basketball Team",
   SeedActivity "Practice and play basketball with the school team"
     "Wednesdays and Fridays, 3:30 PM - 5:00 PM" 15
     ["ava@mergington.edu"; "mia@mergington.edu"]);
  ("Art Club",
   SeedActivity "Explore your creativity through painting and drawing"
     "Thursdays, 3:30 PM - 5:00 PM" 15
     ["amelia@mergington.edu"; "harper@mergington.edu"]);
  ("Drama Club",
   SeedActivity "Act, direct, and produce plays and performances"
     "Mondays and Wednesdays, 4:00 PM - 5:30 PM" 20
     ["ella@mergington.edu"; "scarlett@mergington.edu"]);
  ("Math Club",
   SeedActivity "Solve challenging problems and participate in math competitions"
     "Tuesdays, 3:30 PM - 4:30 PM" 10
     ["james@mergington.edu"; "benjamin@mergington.edu"]);
  ("Debate Team",
   SeedActivity "Develop public speaking and argumentation skills"
     "Fridays, 4:00 PM - 5:30 PM" 12
     ["charlotte@mergington.edu"; "henry@mergington.edu"])
].

(** ** [init_db] (lines 33-128) *)

(** The inner loop, lines 121-125. *)
Definition seed_enrollments (n : string) (ps : list string) (d : db) : db :=
  foldl (λ d p, insert_or_ignore_participant n p d) d ps.

(** The outer loop, lines 116-125: an exception of the INSERT leaves the
    loop at once. *)
Fixpoint seed_loop (items : list (string * seed_activity)) (d : db) : exn + db :=
  match items with
  | [] => inr d
  | (n, data) :: items =>
      match insert_activity
              (ActivityRow n (seed_description data) (seed_schedule data)
                 (seed_max_participants data)) d with
      | inl e => inl e
      | inr d => seed_loop items (seed_enrollments n (seed_participants data) d)
      end
  end.

(** Lines 34-53 open the connection, create the missing tables and commit;
    lines 56-58 count the activities; lines 116-126 seed and commit.  An
    exception of the seeding leaves the function before the second commit,
    so the store stays at the first one. *)
Definition init_db (f : file) : (exn + ()) * db :=
  let conn := commit (get_db_connection (create_tables f)) in
  if decide (select_count_activities (pending conn) = 0) then
    match seed_loop seed_activities (pending conn) with
    | inl e => (inl e, close conn)
    | inr d =>
        let conn := commit (execute (λ _, d) conn) in
        (inr (), close conn)
    end
  else (inr (), close conn).

(** ** [activity_row_to_dict] (lines 131-138) *)

Record activity_dict := ActivityDict {
  dict_name : string;
  dict_description : string;
  dict_schedule : string;
  dict_max_participants : Z;
  dict_participants : list string
}.

Definition activity_row_to_dict (row : activity_row) : activity_dict :=
  ActivityDict (name row) (description row) (schedule row)
    (max_participants row) [].

(** [activity["participants"] = parts] *)
Definition set_participants (parts : list string) (a : activity_dict) : activity_dict :=
  ActivityDict (dict_name a) (dict_description a) (dict_schedule a)
    (dict_max_participants a) parts.

(** ** [get_activities] (lines 150-164) *)

Definition get_activities (d : db) : gmap string activity_dict * db :=
  let conn := get_db_connection d in
  let rows := select_all_activities (pending conn) in
  let result :=
    foldl (λ (result : gmap string activity_dict) r,
             let activity := activity_row_to_dict r in
             let parts := select_emails_by_activity (name r) (pending conn) in
             <[name r := set_participants parts activity]> result)
          ∅ rows in
  (result, close conn).

(** ** [signup_for_activity] (lines 167-188) *)

Record message_body := MessageBody { message : string }.

Definition signup_for_activity (activity_name email : string) (d : db)
  : (exn + message_body) * db :=
  let conn := get_db_connection d in
  match select_activity_by_name activity_name (pending conn) with
  | None => (inl (HTTPException 404 "Activity not found"), close conn)
  | Some row =>
      match select_one_participant activity_name email (pending conn) with
      | Some _ =>
          (inl (HTTPException 400 "Student is already signed up"), close conn)
      | None =>
          match insert_participant activity_name email (pending conn) with
          | inl e => (inl e, close conn)
          | inr d' =>
              let conn := commit (execute (λ _, d') conn) in
              (inr (MessageBody ("Signed up " +:+ email +:+ " for " +:+ activity_name)),
               close conn)
          end
      end
  end.

(** ** [unregister_from_activity] (lines 191-210) *)

Definition unregister_from_activity (activity_name email : string) (d : db)
  : (exn + message_body) * db :=
  let conn := get_db_connection d in
  match select_activity_by_name activity_name (pending conn) with
  | None => (inl (HTTPException 404 "Activity not found"), close conn)
  | Some row =>
      match select_one_participant activity_name email (pending conn) with
      | None =>
          (inl (HTTPException 400 "Student is not signed up for this activity"),
           close conn)
      | Some _ =>
          let conn := execute (delete_participant activity_name email) conn in
          let conn := commit conn in
          (inr (MessageBody ("Unregistered " +:+ email +:+ " from " +:+ activity_name)),
           close conn)
      end
  end.

(** ** Reachable states

    The module runs [init_db] when it is imported (line 214), so every
    request is served on a store that [init_db] has returned; the process
    can be restarted on the file it left, and requests arrive in any
    order. *)
Inductive reachable : db → Prop :=
| reachable_first_start :
    reachable (init_db no_file).2
| reachable_restart d :
    reachable d → reachable (init_db (file_of d)).2
| reachable_list d :
    reachable d → reachable (get_activities d).2
| reachable_signup d a e :
    reachable d → reachable (signup_for_activity a e d).2
| reachable_unregister d a e :
    reachable d → reachable (unregister_from_activity a e d).2.

(** The store after the first start. *)
Definition seeded : db := Eval vm_compute in (init_db no_file).2.

(** ** Vocabulary of the properties *)

(** An activity of that name is stored. *)
Definition activity_exists (n : string) (d : db) : Prop :=
  n ∈ name <$> tbl_activities d.

(** The pair is stored as an enrollment row. *)
Definition enrolled (a e : string) (d : db) : Prop :=
  ParticipantRow a e ∈ tbl_participants d.

#[global] Instance activity_exists_dec n d : Decision (activity_exists n d).
Proof. unfold activity_exists. apply _. Defined.

#[global] Instance enrolled_dec a e d : Decision (enrolled a e d).
Proof. unfold enrolled. apply _. Defined.

(** The enrollment rows of one activity, in insertion order, and their
    emails. *)
Definition enrollments_of (a : string) (d : db) : list participant_row :=
  filter (λ r, activity_name r = a) (tbl_participants d).

Definition enrolled_emails (a : string) (d : db) : list string :=
  email <$> enrollments_of a d.

(** The store with one more enrollment row, and with the rows of one pair
    taken out. *)
Definition with_enrollment (a e : string) (d : db) : db :=
  Db (tbl_activities d) (tbl_participants d ++ [ParticipantRow a e]).

Definition without_enrollment (a e : string) (d : db) : db :=
  Db (tbl_activities d) (filter (λ r, r ≠ ParticipantRow a e) (tbl_participants d)).

(** The pair (activity_name, email) identifies at most one row. *)
Definition unique_enrollments (d : db) : Prop :=
  ∀ i j r1 r2,
    tbl_participants d !! i = Some r1 →
    tbl_participants d !! j = Some r2 →
    activity_name r1 = activity_name r2 →
    email r1 = email r2 →
    i = j.

(** The same for a file, whose participants table may be absent. *)
Definition file_unique_enrollments (f : file) : Prop :=
  NoDup (create_table_if_not_exists (file_participants f)).

Definition signed_up_message (a e : string) : message_body :=
  MessageBody ("Signed up " +:+ e +:+ " for " +:+ a).

Definition unregistered_message (a e : string) : message_body :=
  MessageBody ("Unregistered " +:+ e +:+ " from " +:+ a).

(** The row that line 117 inserts for one item of the seed dict. *)
Definition seed_row (item : string * seed_activity) : activity_row :=
  ActivityRow item.1 (seed_description item.2) (seed_schedule item.2)
    (seed_max_participants item.2).

(** A run of sign-ups for one activity. *)
Definition signups (a : string) (es : list string) (d : db) : db :=
  foldl (λ d e, (signup_for_activity a e d).2) d es.

(** The seeded store after eight more students joined the Math Club, whose
    [max_participants] is 10. *)
Definition full_math_club : db :=
  signups "Math Club"
    ["s1@mergington.edu"; "s2@mergington.edu"; "s3@mergington.edu";
     "s4@mergington.edu"; "s5@mergington.edu"; "s6@mergington.edu";
     "s7@mergington.edu"; "s8@mergington.edu"] seeded.


(** Every enrollment row names a stored activity. *)
Definition no_orphan_enrollments (d : db) : Prop :=
  ∀ r, r ∈ tbl_participants d → activity_exists (activity_name r) d.

(** The store with its enrollment rows in the opposite order. *)
Definition reverse_enrollments (d : db) : db :=
  Db (tbl_activities d) (reverse (tbl_participants d)).

(** ** The statements, one by one *)

Section statements.
Implicit Types (d : db) (a e n : string) (r : participant_row).

Lemma participant_row_eta r : ParticipantRow (activity_name r) (email r) = r.
Proof. by destruct r. Qed.

Lemma participant_row_eq r a e :
  r = ParticipantRow a e ↔ activity_name r = a ∧ email r = e.
Proof. destruct r; simpl. split; [by intros [= -> ->] | by intros [-> ->]]. Qed.

Lemma head_filter_None {A} (P : A → Prop) `{!∀ x, Decision (P x)} (l : list A) :
  head (filter P l) = None ↔ ∀ x, x ∈ l → ¬ P x.
Proof.
  rewrite head_None. split.
  - intros Hnil x Hx HP.
    assert (x ∈ filter P l) as Hin by (by apply list_elem_of_filter).
    rewrite Hnil in Hin. by apply elem_of_nil in Hin.
  - intros Hall. induction l as [|y l IH]; [done|].
    rewrite filter_cons. destruct (decide (P y)) as [HP|_].
    + exfalso. apply (Hall y); [left | done].
    + apply IH. intros x Hx. apply Hall. by right.
Qed.

Lemma select_activity_by_name_None n d :
  select_activity_by_name n d = None ↔ ¬ activity_exists n d.
Proof.
  unfold select_activity_by_name, activity_exists.
  rewrite head_filter_None, list_elem_of_fmap. split.
  - intros Hall (r & -> & Hr). by apply (Hall r).
  - intros Hno r Hr Hn. apply Hno. by exists r.
Qed.

Lemma select_activity_by_name_Some n d :
  is_Some (select_activity_by_name n d) ↔ activity_exists n d.
Proof.
  rewrite <-not_eq_None_Some, select_activity_by_name_None.
  split; [apply dec_stable | tauto].
Qed.

Lemma select_one_participant_None a e d :
  select_one_participant a e d = None ↔ ¬ enrolled a e d.
Proof.
  unfold select_one_participant, enrolled.
  assert (∀ l : list participant_row,
    head ((λ _, 1) <$> l) = None ↔ head l = None) as -> by (by intros []).
  rewrite head_filter_None. split.
  - intros Hall Hin. by apply (Hall _ Hin).
  - intros Hno r Hr Hae. apply Hno.
    by apply participant_row_eq in Hae as <-.
Qed.

Lemma select_one_participant_Some a e d :
  is_Some (select_one_participant a e d) ↔ enrolled a e d.
Proof.
  rewrite <-not_eq_None_Some, select_one_participant_None.
  split; [apply dec_stable | tauto].
Qed.

Lemma insert_participant_fresh a e d :
  ¬ enrolled a e d → insert_participant a e d = inr (with_enrollment a e d).
Proof. intros Hno. unfold insert_participant. by rewrite decide_False. Qed.

Lemma delete_participant_without a e d :
  delete_participant a e d = without_enrollment a e d.
Proof.
  unfold delete_participant, without_enrollment. f_equal.
  apply list_filter_iff. intros r. by rewrite participant_row_eq.
Qed.

Lemma filter_all {A} (P : A → Prop) `{!∀ x, Decision (P x)} (l : list A) :
  (∀ x, x ∈ l → P x) → filter P l = l.
Proof.
  induction l as [|y l IH]; intros Hall; [done|].
  rewrite filter_cons, decide_True by (apply Hall; left).
  f_equal. apply IH. intros x Hx. apply Hall. by right.
Qed.

Lemma without_with_enrollment a e d :
  ¬ enrolled a e d → without_enrollment a e (with_enrollment a e d) = d.
Proof.
  intros Hno. destruct d as [acts ps]. unfold without_enrollment; simpl.
  f_equal. rewrite filter_app, filter_cons, decide_False, filter_nil, app_nil_r
    by (intros Hne; by apply Hne).
  apply filter_all. intros r Hr ->. by apply Hno.
Qed.
End statements.

(** ** The two mutating endpoints, case by case *)

Section endpoints.
Implicit Types (d : db) (a e : string).

Lemma signup_not_found a e d :
  ¬ activity_exists a d →
  signup_for_activity a e d = (inl (HTTPException 404 "Activity not found"), d).
Proof.
  intros Hno%select_activity_by_name_None.
  unfold signup_for_activity; simpl. by rewrite Hno.
Qed.

Lemma signup_conflict a e d :
  activity_exists a d → enrolled a e d →
  signup_for_activity a e d
  = (inl (HTTPException 400 "Student is already signed up"), d).
Proof.
  intros [row Hrow]%select_activity_by_name_Some [one Hone]%select_one_participant_Some.
  unfold signup_for_activity; simpl. by rewrite Hrow, Hone.
Qed.

Lemma signup_success a e d :
  activity_exists a d → ¬ enrolled a e d →
  signup_for_activity a e d = (inr (signed_up_message a e), with_enrollment a e d).
Proof.
  intros [row Hrow]%select_activity_by_name_Some Hno.
  unfold signup_for_activity; simpl. rewrite Hrow.
  rewrite (proj2 (select_one_participant_None a e d) Hno).
  by rewrite insert_participant_fresh.
Qed.

Lemma unregister_not_found a e d :
  ¬ activity_exists a d →
  unregister_from_activity a e d
  = (inl (HTTPException 404 "Activity not found"), d).
Proof.
  intros Hno%select_activity_by_name_None.
  unfold unregister_from_activity; simpl. by rewrite Hno.
Qed.

Lemma unregister_not_signed_up a e d :
  activity_exists a d → ¬ enrolled a e d →
  unregister_from_activity a e d
  = (inl (HTTPException 400 "Student is not signed up for this activity"), d).
Proof.
  intros [row Hrow]%select_activity_by_name_Some Hno%select_one_participant_None.
  unfold unregister_from_activity; simpl. by rewrite Hrow, Hno.
Qed.

Lemma unregister_success a e d :
  activity_exists a d → enrolled a e d →
  unregister_from_activity a e d
  = (inr (unregistered_message a e), without_enrollment a e d).
Proof.
  intros [row Hrow]%select_activity_by_name_Some [one Hone]%select_one_participant_Some.
  unfold unregister_from_activity; simpl. rewrite Hrow, Hone.
  by rewrite delete_participant_without.
Qed.

(** Both endpoints fall in exactly one of their three cases. *)
Lemma signup_cases a e d :
  signup_for_activity a e d
  = if decide (activity_exists a d) then
      if decide (enrolled a e d)
      then (inl (HTTPException 400 "Student is already signed up"), d)
      else (inr (signed_up_message a e), with_enrollment a e d)
    else (inl (HTTPException 404 "Activity not found"), d).
Proof.
  repeat case_decide;
    auto using signup_not_found, signup_conflict, signup_success.
Qed.

Lemma unregister_cases a e d :
  unregister_from_activity a e d
  = if decide (activity_exists a d) then
      if decide (enrolled a e d)
      then (inr (unregistered_message a e), without_enrollment a e d)
      else (inl (HTTPException 400 "Student is not signed up for this activity"), d)
    else (inl (HTTPException 404 "Activity not found"), d).
Proof.
  repeat case_decide;
    auto using unregister_not_found, unregister_not_signed_up, unregister_success.
Qed.

Lemma activity_exists_with_enrollment a a' e d :
  activity_exists a (with_enrollment a' e d) ↔ activity_exists a d.
Proof. done. Qed.

Lemma enrolled_with_enrollment a e d : enrolled a e (with_enrollment a e d).
Proof. unfold enrolled; simpl. apply elem_of_app. right. left. Qed.

Lemma not_enrolled_without_enrollment a e d :
  ¬ enrolled a e (without_enrollment a e d).
Proof.
  unfold enrolled; simpl. rewrite list_elem_of_filter. by intros [Hne _].
Qed.
End endpoints.

(** ** Listing *)

Section listing.
Implicit Types (d : db) (a e n : string).

Lemma select_emails_by_activity_Permutation a d :
  select_emails_by_activity a d ≡ₚ enrolled_emails a d.
Proof.
  unfold select_emails_by_activity; simpl.
  case_decide; [apply merge_sort_Permutation | done].
Qed.

Lemma select_emails_by_activity_index a d :
  NoDup (tbl_participants d) →
  select_emails_by_activity a d = merge_sort String.le (enrolled_emails a d).
Proof.
  intros Hnd. unfold select_emails_by_activity; simpl. by rewrite decide_True.
Qed.

Lemma select_emails_by_activity_scan a d :
  ¬ NoDup (tbl_participants d) →
  select_emails_by_activity a d = enrolled_emails a d.
Proof.
  intros Hnd. unfold select_emails_by_activity; simpl. by rewrite decide_False.
Qed.

Lemma select_emails_by_activity_Sorted a d :
  NoDup (tbl_participants d) →
  Sorted String.le (select_emails_by_activity a d).
Proof.
  intros Hnd. rewrite select_emails_by_activity_index by done.
  apply (Sorted_merge_sort String.le).
Qed.

Lemma elem_of_enrolled_emails a e d :
  e ∈ enrolled_emails a d ↔ enrolled a e d.
Proof.
  unfold enrolled_emails, enrollments_of, enrolled.
  rewrite list_elem_of_fmap. split.
  - intros (r & -> & [<- Hr]%list_elem_of_filter).
    by rewrite participant_row_eta.
  - intros Hin. exists (ParticipantRow a e). split; [done|].
    by apply list_elem_of_filter.
Qed.

(** The dict built by the loop of lines 157-162: a later row of the same
    name overwrites an earlier one. *)
Lemma get_activities_lookup d n :
  (get_activities d).1 !! n
  = (λ r, set_participants (select_emails_by_activity n d) (activity_row_to_dict r))
    <$> last (filter (λ r, name r = n) (tbl_activities d)).
Proof.
  unfold get_activities, select_all_activities, get_db_connection; simpl.
  induction (tbl_activities d) as [|r rows IH] using rev_ind; [done|].
  rewrite foldl_snoc, filter_app, filter_cons, filter_nil.
  destruct (decide (name r = n)) as [<-|Hne].
  - by rewrite lookup_insert_eq, last_snoc.
  - by rewrite lookup_insert_ne, app_nil_r.
Qed.

Lemma get_activities_read_only d : (get_activities d).2 = d.
Proof. done. Qed.

Lemma last_filter_is_Some {A} (P : A → Prop) `{!∀ x, Decision (P x)} (l : list A) :
  is_Some (last (filter P l)) ↔ ∃ x, x ∈ l ∧ P x.
Proof.
  rewrite <-not_eq_None_Some, last_None. split.
  - destruct (filter P l) as [|x k] eqn:Hf; [done|]. intros _.
    assert (x ∈ filter P l) as [HP Hx]%list_elem_of_filter by (rewrite Hf; left).
    by exists x.
  - intros (x & Hx & HP) Hnil.
    by apply (filter_nil_not_elem_of P l x).
Qed.
End listing.

(** ** Uniqueness of enrollments *)

Section uniqueness.
Implicit Types (d : db) (a e n : string).

Lemma unique_enrollments_NoDup d :
  unique_enrollments d ↔ NoDup (tbl_participants d).
Proof.
  unfold unique_enrollments. rewrite NoDup_alt. split.
  - intros Huniq i j r Hi Hj. by apply (Huniq i j r r).
  - intros Hnd i j r1 r2 Hi Hj Ha He. apply (Hnd i j r1); [done|].
    rewrite Hj. f_equal. destruct r1, r2; simpl in *. by subst.
Qed.

Lemma NoDup_with_enrollment a e d :
  ¬ enrolled a e d →
  NoDup (tbl_participants d) → NoDup (tbl_participants (with_enrollment a e d)).
Proof.
  intros Hno Hnd; simpl. apply NoDup_app. split_and!; [done| |apply NoDup_singleton].
  intros r Hr ->%list_elem_of_singleton. by apply Hno.
Qed.

Lemma NoDup_without_enrollment a e d :
  NoDup (tbl_participants d) → NoDup (tbl_participants (without_enrollment a e d)).
Proof. intros Hnd; simpl. by apply NoDup_filter. Qed.

Lemma NoDup_insert_or_ignore a e d :
  NoDup (tbl_participants d) →
  NoDup (tbl_participants (insert_or_ignore_participant a e d)).
Proof.
  intros Hnd. unfold insert_or_ignore_participant.
  case_decide; [done|]. by apply (NoDup_with_enrollment a e d).
Qed.

Lemma NoDup_seed_enrollments n ps d :
  NoDup (tbl_participants d) →
  NoDup (tbl_participants (seed_enrollments n ps d)).
Proof.
  unfold seed_enrollments. revert d.
  induction ps as [|p ps IH]; intros d Hnd; [done|].
  simpl. by apply IH, NoDup_insert_or_ignore.
Qed.

Lemma NoDup_seed_loop items d d' :
  seed_loop items d = inr d' →
  NoDup (tbl_participants d) → NoDup (tbl_participants d').
Proof.
  revert d. induction items as [|[n data] items IH]; intros d; simpl.
  - by intros [= ->].
  - destruct (insert_activity _ d) as [ex|d1] eqn:Hins; [done|].
    intros Hloop Hnd. apply (IH _ Hloop), NoDup_seed_enrollments.
    unfold insert_activity in Hins. case_decide; [done|].
    by injection Hins as <-.
Qed.

Lemma NoDup_signup a e d :
  NoDup (tbl_participants d) →
  NoDup (tbl_participants (signup_for_activity a e d).2).
Proof.
  intros Hnd. rewrite signup_cases. repeat case_decide; simpl; try done.
  by apply (NoDup_with_enrollment a e d).
Qed.

Lemma NoDup_unregister a e d :
  NoDup (tbl_participants d) →
  NoDup (tbl_participants (unregister_from_activity a e d).2).
Proof.
  intros Hnd. rewrite unregister_cases. repeat case_decide; simpl; try done.
  by apply NoDup_filter.
Qed.
End uniqueness.

(** ** Initialization *)

Section initialization.
Implicit Types (d : db) (f : file) (n : string).

Lemma seed_enrollments_activities n ps d :
  tbl_activities (seed_enrollments n ps d) = tbl_activities d.
Proof.
  unfold seed_enrollments. revert d.
  induction ps as [|p ps IH]; intros d; [done|].
  simpl. rewrite IH. unfold insert_or_ignore_participant. by case_decide.
Qed.

Lemma seed_loop_activities items d d' :
  seed_loop items d = inr d' →
  tbl_activities d' = tbl_activities d ++ (seed_row <$> items).
Proof.
  revert d. induction items as [|[n data] items IH]; intros d; simpl.
  - intros [= ->]. by rewrite app_nil_r.
  - unfold insert_activity. case_decide; [done|]. intros Hloop.
    rewrite (IH _ Hloop), seed_enrollments_activities; simpl.
    by rewrite <-app_assoc.
Qed.

(** Seeding cannot fail when the names to insert are pairwise distinct
    and none of them is stored yet. *)
Lemma seed_loop_succeeds items d :
  NoDup (items.*1) →
  (∀ n, n ∈ items.*1 → ¬ activity_exists n d) →
  ∃ d', seed_loop items d = inr d'.
Proof.
  revert d. induction items as [|[n data] items IH]; intros d Hnd Hfresh; simpl.
  - by eexists.
  - apply NoDup_cons in Hnd as [Hn Hnd].
    unfold insert_activity; simpl. rewrite decide_False by (apply Hfresh; left).
    apply IH; [done|]. intros n' Hn'. unfold activity_exists.
    rewrite seed_enrollments_activities; simpl.
    rewrite fmap_app, elem_of_app; simpl.
    intros [Hin | ->%list_elem_of_singleton]; [|done]. apply (Hfresh n'); [by right | done].
Qed.

Lemma seed_names_NoDup : NoDup (seed_activities.*1).
Proof. by apply (bool_decide_unpack _); vm_compute. Qed.

Lemma init_db_nonempty d :
  tbl_activities d ≠ [] → init_db (file_of d) = (inr (), d).
Proof.
  intros Hne. unfold init_db. destruct d as [acts ps]; simpl in *.
  rewrite decide_False; [done|].
  unfold select_count_activities; simpl. destruct acts; [done | simpl; lia].
Qed.

Lemma init_db_case f :
  (create_table_if_not_exists (file_activities f) = [] ∧
   ∃ d', seed_loop seed_activities (create_tables f) = inr d' ∧
         init_db f = (inr (), d'))
  ∨ (create_table_if_not_exists (file_activities f) ≠ [] ∧
     init_db f = (inr (), create_tables f)).
Proof.
  unfold init_db, commit, execute, close, get_db_connection.
  cbn [pending committed]. case_decide as Hcount.
  - left. unfold select_count_activities in Hcount; simpl in Hcount.
    assert (create_table_if_not_exists (file_activities f) = []) as Hnil
      by (apply length_zero_iff_nil; lia).
    split; [done|].
    destruct (seed_loop_succeeds seed_activities (create_tables f)) as [d' Hd'].
    + apply seed_names_NoDup.
    + intros n _. unfold activity_exists; simpl. rewrite Hnil. apply not_elem_of_nil.
    + exists d'. by rewrite Hd'.
  - right. split; [|done]. intros Hnil. apply Hcount.
    unfold select_count_activities; simpl. by rewrite Hnil.
Qed.

Lemma init_db_succeeds f : (init_db f).1 = inr ().
Proof. by destruct (init_db_case f) as [(_ & d' & _ & ->) | [_ ->]]. Qed.

Lemma init_db_activities_nonempty f : tbl_activities (init_db f).2 ≠ [].
Proof.
  destruct (init_db_case f) as [(_ & d' & Hloop & ->) | [Hne ->]]; [|done].
  simpl. rewrite (seed_loop_activities _ _ _ Hloop). by destruct (tbl_activities _).
Qed.

Lemma NoDup_init_db f :
  file_unique_enrollments f → NoDup (tbl_participants (init_db f).2).
Proof.
  intros Hnd.
  destruct (init_db_case f) as [(_ & d' & Hloop & ->) | [Hne ->]]; [|done].
  by apply (NoDup_seed_loop _ _ _ Hloop).
Qed.

Lemma init_db_seeded : init_db no_file = (inr (), seeded).
Proof. by vm_compute. Qed.
End initialization.

(** ** Shared consequences *)

Section consequences.
Implicit Types (d : db) (a e n : string).

Lemma get_activities_is_Some d n :
  is_Some ((get_activities d).1 !! n) ↔ activity_exists n d.
Proof.
  rewrite get_activities_lookup, fmap_is_Some, last_filter_is_Some.
  unfold activity_exists. rewrite list_elem_of_fmap. split.
  - intros (r & Hr & <-). by exists r.
  - intros (r & -> & Hr). by exists r.
Qed.

Lemma get_activities_Some d n rec :
  (get_activities d).1 !! n = Some rec →
  ∃ r, r ∈ tbl_activities d ∧ name r = n ∧
       rec = set_participants (select_emails_by_activity n d) (activity_row_to_dict r).
Proof.
  rewrite get_activities_lookup.
  destruct (last _) as [r|] eqn:Hlast; [|done]. intros [= <-].
  apply last_Some_elem_of, list_elem_of_filter in Hlast as [Hn Hr].
  by exists r.
Qed.

Lemma elem_of_listed d n rec e :
  (get_activities d).1 !! n = Some rec →
  e ∈ dict_participants rec ↔ enrolled n e d.
Proof.
  intros (r & _ & _ & ->)%get_activities_Some; simpl.
  by rewrite select_emails_by_activity_Permutation, elem_of_enrolled_emails.
Qed.

(** With the pair stored once, deleting it takes out one row and keeps
    the others in place. *)
Lemma without_enrollment_split a e d :
  NoDup (tbl_participants d) → enrolled a e d →
  ∃ l1 l2, tbl_participants d = l1 ++ ParticipantRow a e :: l2 ∧
           tbl_participants (without_enrollment a e d) = l1 ++ l2.
Proof.
  intros Hnd (l1 & l2 & Hsplit)%list_elem_of_split. exists l1, l2.
  split; [done|]. simpl. rewrite Hsplit in *.
  apply NoDup_app in Hnd as (_ & Hl1 & [Hl2 _]%NoDup_cons).
  rewrite filter_app, filter_cons, decide_False by (intros Hne; by apply Hne).
  f_equal; apply filter_all.
  - intros r Hr ->. apply (Hl1 _ Hr). left.
  - by intros r Hr ->.
Qed.

Lemma enrollments_of_with_enrollment a e d :
  enrollments_of a (with_enrollment a e d)
  = enrollments_of a d ++ [ParticipantRow a e].
Proof.
  unfold enrollments_of; simpl.
  by rewrite filter_app, filter_cons, decide_True, filter_nil.
Qed.

Lemma reachable_NoDup d : reachable d → NoDup (tbl_participants d).
Proof.
  induction 1 as [|d _ IH|d _ IH|d a e _ IH|d a e _ IH].
  - apply NoDup_init_db. unfold file_unique_enrollments; simpl. apply NoDup_nil_2.
  - by apply NoDup_init_db.
  - done.
  - by apply NoDup_signup.
  - by apply NoDup_unregister.
Qed.
End consequences.

(** * The properties *)

(** C1.  Enroll, on every store and every (activity_name, email): when no
    activity of that name is stored it fails with 404, whatever the email;
    when the activity is stored and the pair is an enrollment row already it
    fails with 400; otherwise it appends exactly the row (activity_name,
    email), commits, and returns the message
    "Signed up {email} for {activity_name}". *)
Theorem signup_for_activity_spec (a e : string) (d : db) :
  (¬ activity_exists a d →
   signup_for_activity a e d
   = (inl (HTTPException 404 "Activity not found"), d)) ∧
  (activity_exists a d → enrolled a e d →
   signup_for_activity a e d
   = (inl (HTTPException 400 "Student is already signed up"), d)) ∧
  (activity_exists a d → ¬ enrolled a e d →
   signup_for_activity a e d
   = (inr (MessageBody ("Signed up " +:+ e +:+ " for " +:+ a)),
      Db (tbl_activities d) (tbl_participants d ++ [ParticipantRow a e]))).
Proof.
  split_and!.
  - apply signup_not_found.
  - apply signup_conflict.
  - apply signup_success.
Qed.

Lemma signup_for_activity_spec_witness :
  signup_for_activity "Knitting Circle" "new@mergington.edu" seeded
  = (inl (HTTPException 404 "Activity not found"), seeded) ∧
  signup_for_activity "Chess Club" "daniel@mergington.edu" seeded
  = (inl (HTTPException 400 "Student is already signed up"), seeded) ∧
  signup_for_activity "Chess Club" "new@mergington.edu" seeded
  = (inr (MessageBody "Signed up new@mergington.edu for Chess Club"),
     Db (tbl_activities seeded)
        (tbl_participants seeded
         ++ [ParticipantRow "Chess Club" "new@mergington.edu"])).
Proof.
  split_and!.
  - apply (signup_for_activity_spec "Knitting Circle" "new@mergington.edu" seeded).
    apply (bool_decide_unpack _). vm_compute. exact I.
  - apply (signup_for_activity_spec "Chess Club" "daniel@mergington.edu" seeded).
    + apply (bool_decide_unpack _). vm_compute. exact I.
    + apply (bool_decide_unpack _). vm_compute. exact I.
  - apply (signup_for_activity_spec "Chess Club" "new@mergington.edu" seeded).
    + apply (bool_decide_unpack _). vm_compute. exact I.
    + apply (bool_decide_unpack _). vm_compute. exact I.
Defined.

(** C2.  Withdraw, on every store and every (activity_name, email): it
    fails with 404 exactly when no activity of that name is stored, and with
    400 "not signed up" exactly when the activity is stored and the pair is
    not an enrollment row; otherwise it deletes the rows of that pair (one
    row, the others staying in place, when pairs are stored once), commits,
    and returns the message "Unregistered {email} from {activity_name}". *)
Theorem unregister_from_activity_spec (a e : string) (d : db) :
  ((unregister_from_activity a e d).1
   = inl (HTTPException 404 "Activity not found")
   ↔ ¬ activity_exists a d) ∧
  ((unregister_from_activity a e d).1
   = inl (HTTPException 400 "Student is not signed up for this activity")
   ↔ activity_exists a d ∧ ¬ enrolled a e d) ∧
  (activity_exists a d → enrolled a e d →
   unregister_from_activity a e d
   = (inr (MessageBody ("Unregistered " +:+ e +:+ " from " +:+ a)),
      Db (tbl_activities d)
         (filter (λ r, r ≠ ParticipantRow a e) (tbl_participants d))) ∧
   ¬ enrolled a e (unregister_from_activity a e d).2 ∧
   (unique_enrollments d →
    ∃ l1 l2,
      tbl_participants d = l1 ++ ParticipantRow a e :: l2 ∧
      tbl_participants (unregister_from_activity a e d).2 = l1 ++ l2)).
Proof.
  split_and!.
  - rewrite unregister_cases. repeat case_decide; simpl; split; try done; tauto.
  - rewrite unregister_cases. repeat case_decide; simpl; split; try done; tauto.
  - intros Ha He. rewrite unregister_success by done. split_and!.
    + done.
    + apply not_enrolled_without_enrollment.
    + intros Hu%unique_enrollments_NoDup. by apply without_enrollment_split.
Qed.

Lemma unregister_from_activity_spec_witness :
  unregister_from_activity "Chess Club" "daniel@mergington.edu" seeded
  = (inr (MessageBody "Unregistered daniel@mergington.edu from Chess Club"),
     Db (tbl_activities seeded)
        (filter (λ r, r ≠ ParticipantRow "Chess Club" "daniel@mergington.edu")
           (tbl_participants seeded))).
Proof.
  apply (unregister_from_activity_spec "Chess Club" "daniel@mergington.edu" seeded).
  - apply (bool_decide_unpack _). vm_compute. exact I.
  - apply (bool_decide_unpack _). vm_compute. exact I.
Defined.

(** C3, as stated, fails: on the seeded store the Chess Club rows were
    inserted as michael, daniel, and List returns daniel, michael. *)
Lemma get_activities_insertion_order_counterexample :
  ¬ (∀ (d : db) (n : string) (rec : activity_dict),
       (get_activities d).1 !! n = Some rec →
       dict_participants rec = enrolled_emails n d).
Proof.
  intros Horder.
  assert ((get_activities seeded).1 !! "Chess Club"
          = Some (ActivityDict "Chess Club"
                    "Learn strategies and compete in chess tournaments"
                    "Fridays, 3:30 PM - 5:00 PM" 12
                    ["daniel@mergington.edu"; "michael@mergington.edu"]))
    as Hlisted by (by vm_compute).
  apply Horder in Hlisted. vm_compute in Hlisted. discriminate Hlisted.
Qed.

(** C3, amended.  On every store List is read-only and returns a mapping
    whose keys are exactly the stored activity names; the record under a
    name carries the description, schedule and capacity of a stored
    activity of that name, and a participants list that holds exactly the
    emails of the enrollment rows of that activity; its length is the number
    of those rows.  Where each pair is stored once, as the UNIQUE constraint
    of the schema has it, the list is in ascending byte order of the email
    and not in insertion order; in a store that holds a pair twice it is in
    insertion order. *)
Theorem get_activities_spec (d : db) :
  (get_activities d).2 = d ∧
  (∀ n, is_Some ((get_activities d).1 !! n) ↔ activity_exists n d) ∧
  (∀ n rec, (get_activities d).1 !! n = Some rec →
     (∃ r, r ∈ tbl_activities d ∧ name r = n ∧
           dict_name rec = n ∧
           dict_description rec = description r ∧
           dict_schedule rec = schedule r ∧
           dict_max_participants rec = max_participants r) ∧
     dict_participants rec ≡ₚ enrolled_emails n d ∧
     (∀ e, e ∈ dict_participants rec ↔ enrolled n e d) ∧
     (unique_enrollments d → Sorted String.le (dict_participants rec)) ∧
     (¬ unique_enrollments d → dict_participants rec = enrolled_emails n d) ∧
     length (dict_participants rec) = length (enrollments_of n d)).
Proof.
  split_and!.
  - apply get_activities_read_only.
  - apply get_activities_is_Some.
  - intros n rec Hrec. split_and!.
    + apply get_activities_Some in Hrec as (r & Hr & Hn & ->). by exists r.
    + apply get_activities_Some in Hrec as (r & _ & _ & ->); simpl.
      apply select_emails_by_activity_Permutation.
    + intros e. by apply elem_of_listed.
    + intros Hu%unique_enrollments_NoDup.
      apply get_activities_Some in Hrec as (r & _ & _ & ->); simpl.
      by apply select_emails_by_activity_Sorted.
    + rewrite unique_enrollments_NoDup. intros Hdup.
      apply get_activities_Some in Hrec as (r & _ & _ & ->); simpl.
      by apply select_emails_by_activity_scan.
    + apply get_activities_Some in Hrec as (r & _ & _ & ->); simpl.
      rewrite select_emails_by_activity_Permutation.
      unfold enrolled_emails. by rewrite length_fmap.
Qed.

Lemma get_activities_spec_witness :
  Sorted String.le ["daniel@mergington.edu"; "michael@mergington.edu"].
Proof.
  destruct (get_activities_spec seeded) as (_ & _ & Hrec).
  destruct (Hrec "Chess Club"
              (ActivityDict "Chess Club"
                 "Learn strategies and compete in chess tournaments"
                 "Fridays, 3:30 PM - 5:00 PM" 12
                 ["daniel@mergington.edu"; "michael@mergington.edu"]))
    as (_ & _ & _ & Hsorted & _).
  - vm_compute. reflexivity.
  - apply Hsorted. apply unique_enrollments_NoDup.
    apply (bool_decide_unpack _). vm_compute. exact I.
Defined.

(** C4.  When the activity is stored and the pair is not enrolled, a first
    Enroll succeeds and a second Enroll with the same arguments fails with
    400, leaving the store as the first call left it: the pair is stored
    once. *)
Theorem signup_twice (a e : string) (d : db) :
  activity_exists a d → ¬ enrolled a e d →
  let first := signup_for_activity a e d in
  let second := signup_for_activity a e first.2 in
  first.1 = inr (MessageBody ("Signed up " +:+ e +:+ " for " +:+ a)) ∧
  second.1 = inl (HTTPException 400 "Student is already signed up") ∧
  second.2 = first.2 ∧
  tbl_participants second.2 = tbl_participants d ++ [ParticipantRow a e].
Proof.
  intros Ha He; simpl. rewrite (signup_success a e d) by done; simpl.
  rewrite signup_conflict; [done | done |]. apply enrolled_with_enrollment.
Qed.

Lemma signup_twice_witness :
  (signup_for_activity "Chess Club" "new@mergington.edu"
     (signup_for_activity "Chess Club" "new@mergington.edu" seeded).2).1
  = inl (HTTPException 400 "Student is already signed up").
Proof.
  apply (signup_twice "Chess Club" "new@mergington.edu" seeded).
  - apply (bool_decide_unpack _). vm_compute. exact I.
  - apply (bool_decide_unpack _). vm_compute. exact I.
Defined.

(** C5.  When the activity is stored and the pair is not enrolled, Enroll
    followed by Withdraw of the same pair succeeds twice and gives the
    store back as it was; List shows the email under the activity after the
    first call and no longer after the second. *)
Theorem signup_then_unregister (a e : string) (d : db) :
  activity_exists a d → ¬ enrolled a e d →
  let first := signup_for_activity a e d in
  let second := unregister_from_activity a e first.2 in
  first.1 = inr (MessageBody ("Signed up " +:+ e +:+ " for " +:+ a)) ∧
  second.1 = inr (MessageBody ("Unregistered " +:+ e +:+ " from " +:+ a)) ∧
  second.2 = d ∧
  (∃ rec, (get_activities first.2).1 !! a = Some rec ∧ e ∈ dict_participants rec) ∧
  (∃ rec, (get_activities second.2).1 !! a = Some rec ∧ e ∉ dict_participants rec).
Proof.
  intros Ha He; simpl. rewrite (signup_success a e d) by done; simpl.
  rewrite unregister_success by (done || apply enrolled_with_enrollment); simpl.
  rewrite without_with_enrollment by done. split_and!; try done.
  - destruct (proj2 (get_activities_is_Some (with_enrollment a e d) a) Ha)
      as [rec Hrec].
    exists rec. split; [done|].
    apply (elem_of_listed _ _ _ e Hrec), enrolled_with_enrollment.
  - destruct (proj2 (get_activities_is_Some d a) Ha) as [rec Hrec].
    exists rec. split; [done|]. by rewrite (elem_of_listed _ _ _ e Hrec).
Qed.

Lemma signup_then_unregister_witness :
  (unregister_from_activity "Chess Club" "new@mergington.edu"
     (signup_for_activity "Chess Club" "new@mergington.edu" seeded).2).2
  = seeded.
Proof.
  apply (signup_then_unregister "Chess Club" "new@mergington.edu" seeded).
  - apply (bool_decide_unpack _). vm_compute. exact I.
  - apply (bool_decide_unpack _). vm_compute. exact I.
Defined.

(** C6.  A call of Enroll or Withdraw that fails leaves the store as it
    was: no enrollment row is created or removed and no activity row is
    touched.  The failures are the three domain errors. *)
Theorem failed_call_leaves_store (a e : string) (d : db) (ex : exn) :
  ((signup_for_activity a e d).1 = inl ex →
   (signup_for_activity a e d).2 = d ∧
   (ex = HTTPException 404 "Activity not found" ∨
    ex = HTTPException 400 "Student is already signed up")) ∧
  ((unregister_from_activity a e d).1 = inl ex →
   (unregister_from_activity a e d).2 = d ∧
   (ex = HTTPException 404 "Activity not found" ∨
    ex = HTTPException 400 "Student is not signed up for this activity")).
Proof.
  split.
  - rewrite signup_cases. repeat case_decide; simpl; intros [= <-]; auto.
  - rewrite unregister_cases. repeat case_decide; simpl; intros [= <-]; auto.
Qed.

Lemma failed_call_leaves_store_witness :
  (signup_for_activity "Chess Club" "daniel@mergington.edu" seeded).2 = seeded ∧
  (unregister_from_activity "Chess Club" "new@mergington.edu" seeded).2 = seeded.
Proof.
  split.
  - apply (failed_call_leaves_store "Chess Club" "daniel@mergington.edu" seeded
             (HTTPException 400 "Student is already signed up")).
    vm_compute. reflexivity.
  - apply (failed_call_leaves_store "Chess Club" "new@mergington.edu" seeded
             (HTTPException 400 "Student is not signed up for this activity")).
    vm_compute. reflexivity.
Defined.

(** C7.  Enroll does not look at max_participants: when the activity is
    stored and the pair is not enrolled it succeeds, also when the activity
    already has as many enrollment rows as its max_participants or more,
    and the activity then has one row more than that. *)
Theorem signup_ignores_capacity (a e : string) (d : db) :
  activity_exists a d → ¬ enrolled a e d →
  (signup_for_activity a e d).1
  = inr (MessageBody ("Signed up " +:+ e +:+ " for " +:+ a)) ∧
  length (enrollments_of a (signup_for_activity a e d).2)
  = S (length (enrollments_of a d)) ∧
  ∀ r, r ∈ tbl_activities d → name r = a →
       (max_participants r ≤ Z.of_nat (length (enrollments_of a d)))%Z →
       (max_participants r
        < Z.of_nat (length (enrollments_of a (signup_for_activity a e d).2)))%Z.
Proof.
  intros Ha He. rewrite (signup_success a e d) by done; simpl.
  rewrite enrollments_of_with_enrollment, length_app; simpl.
  split_and!; [done | lia |]. intros r _ _ Hfull. lia.
Qed.

Lemma signup_ignores_capacity_witness :
  max_participants
    (ActivityRow "Math Club"
       "Solve challenging problems and participate in math competitions"
       "Tuesdays, 3:30 PM - 4:30 PM" 10)
  < Z.of_nat
      (length
         (enrollments_of "Math Club"
            (signup_for_activity "Math Club" "late@mergington.edu"
               full_math_club).2)).
Proof.
  apply (signup_ignores_capacity "Math Club" "late@mergington.edu" full_math_club).
  - apply (bool_decide_unpack _). vm_compute. exact I.
  - apply (bool_decide_unpack _). vm_compute. exact I.
  - apply (bool_decide_unpack _). vm_compute. exact I.
  - reflexivity.
  - vm_compute. discriminate.
Defined.

(** C8.  Initialization seeds only when the activities table is empty, and
    then stores the literal activities.  On a store with an activity it
    changes nothing, so running it again on the store it returned gives the
    same store and the same List: after two runs the Chess Club has its two
    seeded participants. *)
Theorem init_db_idempotent :
  (∀ f, create_table_if_not_exists (file_activities f) = [] →
        (init_db f).1 = inr () ∧
        tbl_activities (init_db f).2 = seed_row <$> seed_activities) ∧
  (∀ f, create_table_if_not_exists (file_activities f) ≠ [] →
        init_db f = (inr (), create_tables f)) ∧
  (∀ d, tbl_activities d ≠ [] → init_db (file_of d) = (inr (), d)) ∧
  (∀ f, init_db (file_of (init_db f).2) = (inr (), (init_db f).2)) ∧
  (∀ f, (get_activities (init_db (file_of (init_db f).2)).2).1
        = (get_activities (init_db f).2).1) ∧
  dict_participants
    <$> (get_activities (init_db (file_of (init_db no_file).2)).2).1 !! "Chess Club"
  = Some ["daniel@mergington.edu"; "michael@mergington.edu"].
Proof.
  split_and!.
  - intros f Hnil. split; [apply init_db_succeeds|].
    destruct (init_db_case f) as [(_ & d' & Hloop & ->) | [Hne _]]; [|done].
    simpl. rewrite (seed_loop_activities _ _ _ Hloop); simpl. by rewrite Hnil.
  - intros f Hne.
    by destruct (init_db_case f) as [[Hnil _] | [_ ->]].
  - apply init_db_nonempty.
  - intros f. apply init_db_nonempty, init_db_activities_nonempty.
  - intros f. by rewrite init_db_nonempty by apply init_db_activities_nonempty.
  - by vm_compute.
Qed.

Lemma init_db_idempotent_witness :
  init_db (file_of seeded) = (inr (), seeded).
Proof.
  destruct init_db_idempotent as (_ & _ & Hagain & _).
  apply (Hagain seeded). vm_compute. discriminate.
Defined.

(** C9.  In every reachable store the pair (activity_name, email)
    identifies at most one enrollment row, and Initialization, List, Enroll
    and Withdraw each keep it so. *)
Theorem unique_enrollments_invariant :
  (∀ d, reachable d → unique_enrollments d) ∧
  (∀ f, file_unique_enrollments f → unique_enrollments (init_db f).2) ∧
  (∀ d, unique_enrollments d → unique_enrollments (init_db (file_of d)).2) ∧
  (∀ d, unique_enrollments d → unique_enrollments (get_activities d).2) ∧
  (∀ d a e, unique_enrollments d →
            unique_enrollments (signup_for_activity a e d).2) ∧
  (∀ d a e, unique_enrollments d →
            unique_enrollments (unregister_from_activity a e d).2).
Proof.
  split_and!.
  - intros d Hd. by apply unique_enrollments_NoDup, reachable_NoDup.
  - intros f Hf. by apply unique_enrollments_NoDup, NoDup_init_db.
  - intros d Hd%unique_enrollments_NoDup.
    by apply unique_enrollments_NoDup, NoDup_init_db.
  - done.
  - intros d a e Hd%unique_enrollments_NoDup.
    by apply unique_enrollments_NoDup, NoDup_signup.
  - intros d a e Hd%unique_enrollments_NoDup.
    by apply unique_enrollments_NoDup, NoDup_unregister.
Qed.

Lemma unique_enrollments_invariant_witness :
  unique_enrollments
    (unregister_from_activity "Chess Club" "daniel@mergington.edu"
       (signup_for_activity "Chess Club" "new@mergington.edu"
          (init_db no_file).2).2).2.
Proof.
  destruct unique_enrollments_invariant as (Hreach & _).
  apply Hreach.
  apply reachable_unregister, reachable_signup, reachable_first_start.
Defined.

(** C10.  A successful Enroll changes the store only by appending the row
    (activity_name, email): the activities table and every other
    enrollment row stay as they were.  A successful Withdraw leaves the
    activities table and every enrollment row of another pair as they were,
    in their order, and, pairs being stored once, takes out that single
    row. *)
Theorem mutation_frame (a e : string) (d : db) (m : message_body) :
  ((signup_for_activity a e d).1 = inr m →
   tbl_activities (signup_for_activity a e d).2 = tbl_activities d ∧
   tbl_participants (signup_for_activity a e d).2
   = tbl_participants d ++ [ParticipantRow a e]) ∧
  ((unregister_from_activity a e d).1 = inr m →
   tbl_activities (unregister_from_activity a e d).2 = tbl_activities d ∧
   filter (λ r, r ≠ ParticipantRow a e)
     (tbl_participants (unregister_from_activity a e d).2)
   = filter (λ r, r ≠ ParticipantRow a e) (tbl_participants d) ∧
   ¬ enrolled a e (unregister_from_activity a e d).2 ∧
   (unique_enrollments d →
    ∃ l1 l2,
      tbl_participants d = l1 ++ ParticipantRow a e :: l2 ∧
      tbl_participants (unregister_from_activity a e d).2 = l1 ++ l2)).
Proof.
  split.
  - rewrite signup_cases. by repeat case_decide.
  - rewrite unregister_cases. repeat case_decide; try done; simpl.
    intros _. split_and!.
    + done.
    + apply filter_all. by intros r [Hne _]%list_elem_of_filter.
    + apply not_enrolled_without_enrollment.
    + intros Hu%unique_enrollments_NoDup. by apply without_enrollment_split.
Qed.

Lemma mutation_frame_witness :
  tbl_participants
    (signup_for_activity "Chess Club" "new@mergington.edu" seeded).2
  = tbl_participants seeded ++ [ParticipantRow "Chess Club" "new@mergington.edu"] ∧
  tbl_activities
    (unregister_from_activity "Chess Club" "daniel@mergington.edu" seeded).2
  = tbl_activities seeded.
Proof.
  split.
  - apply (mutation_frame "Chess Club" "new@mergington.edu" seeded
             (MessageBody "Signed up new@mergington.edu for Chess Club")).
    vm_compute. reflexivity.
  - apply (mutation_frame "Chess Club" "daniel@mergington.edu" seeded
             (MessageBody "Unregistered daniel@mergington.edu from Chess Club")).
    vm_compute. reflexivity.
Defined.

(** * Further properties of the code *)

Section listing_order.
Implicit Types (d : db) (a e n : string).

(** Two lists of emails with the same elements sort to the same list. *)
Lemma sorted_emails_Permutation (l1 l2 : list string) :
  l1 ≡ₚ l2 → merge_sort String.le l1 = merge_sort String.le l2.
Proof.
  intros Hperm. apply (Sorted_unique String.le).
  - apply (Sorted_merge_sort String.le).
  - apply (Sorted_merge_sort String.le).
  - by rewrite !merge_sort_Permutation.
Qed.

Lemma select_emails_by_activity_perm a d1 d2 :
  NoDup (tbl_participants d1) →
  tbl_participants d1 ≡ₚ tbl_participants d2 →
  select_emails_by_activity a d1 = select_emails_by_activity a d2.
Proof.
  intros Hnd Hperm.
  rewrite !select_emails_by_activity_index by (done || by rewrite <-Hperm).
  apply sorted_emails_Permutation.
  unfold enrolled_emails, enrollments_of. by rewrite Hperm.
Qed.

Lemma get_activities_perm d1 d2 :
  NoDup (tbl_participants d1) →
  tbl_activities d1 = tbl_activities d2 →
  tbl_participants d1 ≡ₚ tbl_participants d2 →
  (get_activities d1).1 = (get_activities d2).1.
Proof.
  intros Hnd Hacts Hperm. apply map_eq. intros n.
  rewrite !get_activities_lookup, Hacts.
  by rewrite (select_emails_by_activity_perm n d1 d2).
Qed.

Lemma get_activities_snoc rows r ps :
  (get_activities (Db (rows ++ [r]) ps)).1
  = <[name r := set_participants (select_emails_by_activity (name r) (Db rows ps))
                  (activity_row_to_dict r)]> (get_activities (Db rows ps)).1.
Proof.
  unfold get_activities, select_all_activities, get_db_connection; simpl.
  by rewrite foldl_snoc.
Qed.

Lemma get_activities_size rows ps :
  NoDup (name <$> rows) → size (get_activities (Db rows ps)).1 = length rows.
Proof.
  induction rows as [|r rows IH] using rev_ind; intros Hnd; [done|].
  rewrite fmap_app in Hnd. apply NoDup_app in Hnd as (Hrows & Hfresh & _).
  rewrite get_activities_snoc, map_size_insert_None.
  - rewrite IH, length_app by done. simpl. lia.
  - apply eq_None_not_Some. intros Hsome%get_activities_is_Some.
    apply (Hfresh _ Hsome). simpl. left.
Qed.

Lemma last_filter_unique_name (rows : list activity_row) r :
  NoDup (name <$> rows) → r ∈ rows →
  last (filter (λ r', name r' = name r) rows) = Some r.
Proof.
  intros Hnd (l1 & l2 & ->)%list_elem_of_split.
  rewrite fmap_app, fmap_cons in Hnd.
  apply NoDup_app in Hnd as (_ & _ & [Hl2 _]%NoDup_cons).
  rewrite filter_app, filter_cons, decide_True by done.
  assert (filter (λ r', name r' = name r) l2 = []) as ->.
  { destruct (filter _ l2) as [|r' k] eqn:Hf; [done|]. exfalso.
    assert (r' ∈ filter (λ r', name r' = name r) l2) as [Heq Hr']%list_elem_of_filter
      by (rewrite Hf; left).
    apply Hl2. rewrite <-Heq. by apply list_elem_of_fmap_2. }
  by rewrite last_snoc.
Qed.
End listing_order.

Section seeding.
Implicit Types (d : db) (a e n : string) (r : participant_row).







Lemma reachable_activities d :
  reachable d → tbl_activities d = seed_row <$> seed_activities.
Proof.
  induction 1 as [|d _ IH|d _ IH|d a e _ IH|d a e _ IH].
  - by rewrite init_db_seeded.
  - rewrite init_db_nonempty; [done|]. by rewrite IH.
  - done.
  - rewrite signup_cases. by repeat case_decide.
  - rewrite unregister_cases. by repeat case_decide.
Qed.

Lemma seeded_no_orphans : no_orphan_enrollments seeded.
Proof.
  unfold no_orphan_enrollments.
  apply (proj1 (Forall_forall (λ r, activity_exists (activity_name r) seeded) _)).
  apply (bool_decide_unpack _). by vm_compute.
Qed.

Lemma reachable_no_orphans d : reachable d → no_orphan_enrollments d.
Proof.
  induction 1 as [|d Hd IH|d _ IH|d a e _ IH|d a e _ IH].
  - rewrite init_db_seeded. apply seeded_no_orphans.
  - rewrite init_db_nonempty; [done|]. by rewrite (reachable_activities d Hd).
  - done.
  - rewrite signup_cases. repeat case_decide; try done.
    intros r [Hr | ->%list_elem_of_singleton]%elem_of_app; [by apply IH | done].
  - rewrite unregister_cases. repeat case_decide; try done.
    intros r [_ Hr]%list_elem_of_filter. by apply IH.
Qed.

Lemma enrolled_with_enrollment_iff a e a' e' d :
  enrolled a' e' (with_enrollment a e d)
  ↔ enrolled a' e' d ∨ (a' = a ∧ e' = e).
Proof.
  unfold enrolled; simpl. rewrite elem_of_app, list_elem_of_singleton.
  split; (intros [?|Heq]; [by left | right]); [by injection Heq | by destruct Heq as [-> ->]].
Qed.

Lemma enrolled_without_enrollment_iff a e a' e' d :
  enrolled a' e' (without_enrollment a e d)
  ↔ enrolled a' e' d ∧ ¬ (a' = a ∧ e' = e).
Proof.
  unfold enrolled; simpl. rewrite list_elem_of_filter. split.
  - intros [Hne Hin]. split; [done|]. intros [-> ->]. by apply Hne.
  - intros [Hin Hne]. split; [|done]. intros [= -> ->]. by apply Hne.
Qed.
End seeding.

Section seeding_rows.
Implicit Types (d : db) (n : string) (r : participant_row).




End seeding_rows.

Section composition.
Implicit Types (d : db) (a e n : string).

Lemma enrollments_of_with_enrollment_ne a e n d :
  n ≠ a → enrollments_of n (with_enrollment a e d) = enrollments_of n d.
Proof.
  intros Hne. unfold enrollments_of; simpl.
  by rewrite filter_app, filter_cons, decide_False, filter_nil, app_nil_r.
Qed.

Lemma enrollments_of_without_enrollment_ne a e n d :
  n ≠ a → enrollments_of n (without_enrollment a e d) = enrollments_of n d.
Proof.
  intros Hne. unfold enrollments_of; simpl. rewrite list_filter_filter.
  apply list_filter_iff. intros r. split; [tauto|].
  intros Hn. split; [done|]. intros ->. by apply Hne.
Qed.

Lemma select_emails_by_enrollments a d1 d2 :
  (NoDup (tbl_participants d1) ↔ NoDup (tbl_participants d2)) →
  enrollments_of a d1 = enrollments_of a d2 →
  select_emails_by_activity a d1 = select_emails_by_activity a d2.
Proof.
  unfold select_emails_by_activity, enrollments_of; simpl.
  intros Hnd ->. by apply decide_ext.
Qed.

Lemma get_activities_lookup_frame n d1 d2 :
  (NoDup (tbl_participants d1) ↔ NoDup (tbl_participants d2)) →
  tbl_activities d1 = tbl_activities d2 →
  enrollments_of n d1 = enrollments_of n d2 →
  (get_activities d1).1 !! n = (get_activities d2).1 !! n.
Proof.
  intros Hnd Hacts Hrows. rewrite !get_activities_lookup, Hacts.
  by rewrite (select_emails_by_enrollments n d1 d2).
Qed.

Lemma NoDup_with_enrollment_iff a e d :
  ¬ enrolled a e d →
  NoDup (tbl_participants (with_enrollment a e d)) ↔ NoDup (tbl_participants d).
Proof.
  intros Hno. split; [|by apply NoDup_with_enrollment].
  simpl. by intros (Hnd & _)%NoDup_app.
Qed.

(** The record under a name lists a permutation of any list that is a
    permutation of the emails enrolled under it. *)
Lemma get_activities_lookup_perm n d1 d2 rec1 (extra : list string) :
  tbl_activities d1 = tbl_activities d2 →
  enrolled_emails n d2 ≡ₚ extra ++ enrolled_emails n d1 →
  (get_activities d1).1 !! n = Some rec1 →
  ∃ rec2, (get_activities d2).1 !! n = Some rec2 ∧
          rec2 = set_participants (dict_participants rec2) rec1 ∧
          dict_participants rec2 ≡ₚ extra ++ dict_participants rec1.
Proof.
  intros Hacts Hperm. rewrite !get_activities_lookup, Hacts.
  destruct (last _) as [r|]; [|done]. intros [= <-]; simpl.
  eexists. split; [done|]. split; [done|]. simpl.
  by rewrite !select_emails_by_activity_Permutation.
Qed.

Lemma with_without_enrollment_Permutation a e d :
  NoDup (tbl_participants d) → enrolled a e d →
  tbl_participants (with_enrollment a e (without_enrollment a e d))
  ≡ₚ tbl_participants d.
Proof.
  intros Hnd He.
  destruct (without_enrollment_split a e d Hnd He) as (l1 & l2 & Hd & Hafter).
  change (tbl_participants (with_enrollment a e (without_enrollment a e d)))
    with (tbl_participants (without_enrollment a e d) ++ [ParticipantRow a e]).
  rewrite Hafter, Hd, <-Permutation_cons_append. apply Permutation_middle.
Qed.
End composition.

(** X1.  [init_db] returns normally on every file, whichever of the two
    tables it finds and whatever rows they hold: the seeding INSERTs cannot
    violate the UNIQUE constraint on the activity name.  The store it leaves
    has at least one activity. *)
Theorem init_db_never_raises (f : file) :
  (init_db f).1 = inr () ∧ tbl_activities (init_db f).2 ≠ [].
Proof.
  split; [apply init_db_succeeds | apply init_db_activities_nonempty].
Qed.



(** X3.  No endpoint creates, changes or deletes an activity: in every
    reachable store the activities table is the seeded one, row for row,
    and the activity names are pairwise distinct. *)
Theorem reachable_activities_fixed (d : db) :
  reachable d →
  tbl_activities d = seed_row <$> seed_activities ∧
  NoDup (name <$> tbl_activities d).
Proof.
  intros Hd. rewrite (reachable_activities d Hd). split; [done|].
  apply (bool_decide_unpack _). by vm_compute.
Qed.

Lemma reachable_activities_fixed_witness :
  tbl_activities
    (signup_for_activity "Chess Club" "new@mergington.edu" (init_db no_file).2).2
  = seed_row <$> seed_activities.
Proof.
  apply (reachable_activities_fixed
           (signup_for_activity "Chess Club" "new@mergington.edu"
              (init_db no_file).2).2).
  apply reachable_signup, reachable_first_start.
Defined.

(** X4.  In every reachable store each enrollment row names a stored
    activity, so List shows every stored enrollment: the email is in the
    participants of the record under its activity name. *)
Theorem reachable_enrollment_listed (d : db) (a e : string) :
  reachable d → enrolled a e d →
  activity_exists a d ∧
  ∃ rec, (get_activities d).1 !! a = Some rec ∧ e ∈ dict_participants rec.
Proof.
  intros Hd He.
  assert (activity_exists a d) as Ha by apply (reachable_no_orphans d Hd _ He).
  split; [done|].
  destruct (proj2 (get_activities_is_Some d a) Ha) as [rec Hrec].
  exists rec. split; [done|]. by apply (elem_of_listed _ _ _ e Hrec).
Qed.

Lemma reachable_enrollment_listed_witness :
  activity_exists "Chess Club"
    (signup_for_activity "Chess Club" "new@mergington.edu" (init_db no_file).2).2.
Proof.
  apply (reachable_enrollment_listed
           (signup_for_activity "Chess Club" "new@mergington.edu"
              (init_db no_file).2).2
           "Chess Club" "new@mergington.edu").
  - apply reachable_signup, reachable_first_start.
  - apply (bool_decide_unpack _). vm_compute. exact I.
Defined.

(** X5.  When the activity names are pairwise distinct, List has one entry
    per activity row: under the name of a row it holds the name,
    description, schedule and capacity of that row with the emails selected
    for that name, and the mapping has as many keys as the table has
    rows. *)
Theorem get_activities_unique_names (d : db) :
  NoDup (name <$> tbl_activities d) →
  (∀ r, r ∈ tbl_activities d →
        (get_activities d).1 !! name r
        = Some (ActivityDict (name r) (description r) (schedule r)
                  (max_participants r)
                  (select_emails_by_activity (name r) d))) ∧
  size (get_activities d).1 = length (tbl_activities d).
Proof.
  intros Hnd. split.
  - intros r Hr. by rewrite get_activities_lookup, last_filter_unique_name.
  - destruct d as [rows ps]. by apply get_activities_size.
Qed.

Lemma get_activities_unique_names_witness :
  size (get_activities seeded).1 = length (tbl_activities seeded).
Proof.
  apply (get_activities_unique_names seeded).
  apply (bool_decide_unpack _). vm_compute. exact I.
Defined.

(** X6.  When each pair is stored once, no email is listed twice under an
    activity. *)
Theorem listed_participants_NoDup (d : db) (n : string) (rec : activity_dict) :
  unique_enrollments d →
  (get_activities d).1 !! n = Some rec →
  NoDup (dict_participants rec).
Proof.
  intros Hu%unique_enrollments_NoDup (r & _ & _ & ->)%get_activities_Some; simpl.
  rewrite select_emails_by_activity_Permutation.
  unfold enrolled_emails, enrollments_of. apply NoDup_fmap_2_strong.
  - intros r1 r2 [Hn1 _]%list_elem_of_filter [Hn2 _]%list_elem_of_filter Hmail.
    destruct r1, r2; simpl in *. by subst.
  - by apply NoDup_filter.
Qed.

Lemma listed_participants_NoDup_witness :
  NoDup ["daniel@mergington.edu"; "michael@mergington.edu"].
Proof.
  apply (listed_participants_NoDup seeded "Chess Club"
           (ActivityDict "Chess Club"
              "Learn strategies and compete in chess tournaments"
              "Fridays, 3:30 PM - 5:00 PM" 12
              ["daniel@mergington.edu"; "michael@mergington.edu"])).
  - apply unique_enrollments_NoDup. apply (bool_decide_unpack _). vm_compute. exact I.
  - vm_compute. reflexivity.
Defined.

(** X7.  Where each pair is stored once, List depends on the enrollment
    rows only up to their order: two such stores with the same activities
    table and the same enrollment rows in any order give the same
    mapping. *)
Theorem get_activities_order_insensitive (d1 d2 : db) :
  unique_enrollments d1 →
  tbl_activities d1 = tbl_activities d2 →
  tbl_participants d1 ≡ₚ tbl_participants d2 →
  unique_enrollments d2 ∧
  (get_activities d1).1 = (get_activities d2).1.
Proof.
  intros Hu%unique_enrollments_NoDup Hacts Hperm. split.
  - apply unique_enrollments_NoDup. by rewrite <-Hperm.
  - apply map_eq. intros n.
    rewrite !get_activities_lookup, Hacts.
    by rewrite (select_emails_by_activity_perm n d1 d2).
Qed.

Lemma get_activities_order_insensitive_witness :
  (get_activities seeded).1 = (get_activities (reverse_enrollments seeded)).1.
Proof.
  apply (get_activities_order_insensitive seeded (reverse_enrollments seeded)).
  - apply unique_enrollments_NoDup. apply (bool_decide_unpack _). vm_compute. exact I.
  - reflexivity.
  - apply (bool_decide_unpack _). vm_compute. exact I.
Defined.

(** X8.  When the activity is stored and the pair is enrolled once,
    Withdraw followed by Enroll of the same pair succeeds twice; the
    activities table is as before, the enrollment rows are the same up to
    their order (the pair is now the last row) and List returns what it
    returned before. *)
Theorem unregister_then_signup (a e : string) (d : db) :
  activity_exists a d → enrolled a e d → unique_enrollments d →
  let first := unregister_from_activity a e d in
  let second := signup_for_activity a e first.2 in
  first.1 = inr (MessageBody ("Unregistered " +:+ e +:+ " from " +:+ a)) ∧
  second.1 = inr (MessageBody ("Signed up " +:+ e +:+ " for " +:+ a)) ∧
  tbl_activities second.2 = tbl_activities d ∧
  last (tbl_participants second.2) = Some (ParticipantRow a e) ∧
  tbl_participants second.2 ≡ₚ tbl_participants d ∧
  (get_activities second.2).1 = (get_activities d).1.
Proof.
  intros Ha He Hu%unique_enrollments_NoDup; simpl.
  rewrite (unregister_success a e d) by done; simpl.
  rewrite signup_success
    by (done || apply not_enrolled_without_enrollment); simpl.
  split_and!; try done.
  - apply last_snoc.
  - by apply (with_without_enrollment_Permutation a e d).
  - symmetry. apply get_activities_perm; [done | done |]. symmetry.
    by apply (with_without_enrollment_Permutation a e d).
Qed.

Lemma unregister_then_signup_witness :
  last (tbl_participants
          (signup_for_activity "Chess Club" "michael@mergington.edu"
             (unregister_from_activity "Chess Club" "michael@mergington.edu"
                seeded).2).2)
  = Some (ParticipantRow "Chess Club" "michael@mergington.edu").
Proof.
  apply (unregister_then_signup "Chess Club" "michael@mergington.edu" seeded).
  - apply (bool_decide_unpack _). vm_compute. exact I.
  - apply (bool_decide_unpack _). vm_compute. exact I.
  - apply unique_enrollments_NoDup. apply (bool_decide_unpack _). vm_compute. exact I.
Defined.

(** X9.  When the activity is stored and the pair is enrolled, a first
    Withdraw succeeds and a second Withdraw with the same arguments fails
    with 400 "not signed up", leaving the store as the first call left
    it. *)
Theorem unregister_twice (a e : string) (d : db) :
  activity_exists a d → enrolled a e d →
  let first := unregister_from_activity a e d in
  let second := unregister_from_activity a e first.2 in
  first.1 = inr (MessageBody ("Unregistered " +:+ e +:+ " from " +:+ a)) ∧
  second.1 = inl (HTTPException 400 "Student is not signed up for this activity") ∧
  second.2 = first.2.
Proof.
  intros Ha He; simpl. rewrite (unregister_success a e d) by done; simpl.
  rewrite unregister_not_signed_up; [done | done |].
  apply not_enrolled_without_enrollment.
Qed.

Lemma unregister_twice_witness :
  (unregister_from_activity "Chess Club" "daniel@mergington.edu"
     (unregister_from_activity "Chess Club" "daniel@mergington.edu" seeded).2).1
  = inl (HTTPException 400 "Student is not signed up for this activity").
Proof.
  apply (unregister_twice "Chess Club" "daniel@mergington.edu" seeded).
  - apply (bool_decide_unpack _). vm_compute. exact I.
  - apply (bool_decide_unpack _). vm_compute. exact I.
Defined.

(** X10.  A successful Enroll for (activity, email) changes List only
    under that activity: the record of every other name is the same, and
    the record of the activity keeps its fields and lists the email in
    addition to the emails it listed before. *)
Theorem signup_listing_frame (a e : string) (d : db) :
  activity_exists a d → ¬ enrolled a e d →
  let d' := (signup_for_activity a e d).2 in
  (∀ n, n ≠ a → (get_activities d').1 !! n = (get_activities d).1 !! n) ∧
  ∃ rec rec',
    (get_activities d).1 !! a = Some rec ∧
    (get_activities d').1 !! a = Some rec' ∧
    rec' = set_participants (dict_participants rec') rec ∧
    dict_participants rec' ≡ₚ e :: dict_participants rec.
Proof.
  intros Ha He; simpl. rewrite (signup_success a e d) by done; simpl. split.
  - intros n Hne. apply get_activities_lookup_frame; [|done|].
    + by apply NoDup_with_enrollment_iff.
    + by apply enrollments_of_with_enrollment_ne.
  - destruct (proj2 (get_activities_is_Some d a) Ha) as [rec Hrec].
    destruct (get_activities_lookup_perm a d (with_enrollment a e d) rec [e])
      as (rec' & Hrec' & Hfields & Hperm); [done | | done |].
    + unfold enrolled_emails. rewrite enrollments_of_with_enrollment, fmap_app.
      simpl. by rewrite <-Permutation_cons_append.
    + by exists rec, rec'.
Qed.

Lemma signup_listing_frame_witness :
  (get_activities
     (signup_for_activity "Chess Club" "new@mergington.edu" seeded).2).1
    !! "Math Club"
  = (get_activities seeded).1 !! "Math Club".
Proof.
  apply (signup_listing_frame "Chess Club" "new@mergington.edu" seeded).
  - apply (bool_decide_unpack _). vm_compute. exact I.
  - apply (bool_decide_unpack _). vm_compute. exact I.
  - vm_compute. discriminate.
Defined.

(** X11.  A successful Withdraw for (activity, email), the pair being
    stored once, changes List only under that activity: the record of every
    other name is the same, and the record of the activity keeps its fields
    and lists the emails it listed before except that email. *)
Theorem unregister_listing_frame (a e : string) (d : db) :
  activity_exists a d → enrolled a e d → unique_enrollments d →
  let d' := (unregister_from_activity a e d).2 in
  (∀ n, n ≠ a → (get_activities d').1 !! n = (get_activities d).1 !! n) ∧
  ∃ rec rec',
    (get_activities d).1 !! a = Some rec ∧
    (get_activities d').1 !! a = Some rec' ∧
    rec' = set_participants (dict_participants rec') rec ∧
    dict_participants rec ≡ₚ e :: dict_participants rec' ∧
    e ∉ dict_participants rec'.
Proof.
  intros Ha He Hu%unique_enrollments_NoDup; simpl.
  rewrite (unregister_success a e d) by done; simpl. split.
  - intros n Hne. apply get_activities_lookup_frame; [|done|].
    + split; [done|]. intros _. by apply NoDup_without_enrollment.
    + by apply enrollments_of_without_enrollment_ne.
  - assert (activity_exists a (without_enrollment a e d)) as Ha' by done.
    destruct (proj2 (get_activities_is_Some _ a) Ha') as [rec' Hrec'].
    destruct (get_activities_lookup_perm a (without_enrollment a e d) d rec' [e])
      as (rec & Hrec & Hfields & Hperm); [done | | done |].
    + destruct (without_enrollment_split a e d Hu He) as (l1 & l2 & Hd & Hafter).
      unfold enrolled_emails, enrollments_of. rewrite Hafter, Hd.
      rewrite !filter_app, filter_cons, decide_True, !fmap_app by done; simpl.
      by rewrite <-Permutation_middle.
    + exists rec, rec'. split_and!; try done.
      * rewrite Hfields. by destruct rec, rec'.
      * rewrite (elem_of_listed _ _ _ e Hrec').
        apply not_enrolled_without_enrollment.
Qed.

Lemma unregister_listing_frame_witness :
  (get_activities
     (unregister_from_activity "Chess Club" "daniel@mergington.edu" seeded).2).1
    !! "Math Club"
  = (get_activities seeded).1 !! "Math Club".
Proof.
  apply (unregister_listing_frame "Chess Club" "daniel@mergington.edu" seeded).
  - apply (bool_decide_unpack _). vm_compute. exact I.
  - apply (bool_decide_unpack _). vm_compute. exact I.
  - apply unique_enrollments_NoDup. apply (bool_decide_unpack _). vm_compute. exact I.
  - vm_compute. discriminate.
Defined.

Section independence.
Implicit Types (d : db) (a e : string).

Lemma activity_exists_after_signup a e a' d :
  activity_exists a' (signup_for_activity a e d).2 ↔ activity_exists a' d.
Proof. rewrite signup_cases. by repeat case_decide. Qed.

Lemma enrolled_after_signup_other a e a' e' d :
  ¬ (a' = a ∧ e' = e) →
  enrolled a' e' (signup_for_activity a e d).2 ↔ enrolled a' e' d.
Proof.
  intros Hne. rewrite signup_cases. repeat case_decide; try done.
  simpl. rewrite enrolled_with_enrollment_iff. tauto.
Qed.

Lemma enrolled_after_unregister_other a e a' e' d :
  ¬ (a' = a ∧ e' = e) →
  enrolled a' e' (unregister_from_activity a e d).2 ↔ enrolled a' e' d.
Proof.
  intros Hne. rewrite unregister_cases. repeat case_decide; try done.
  simpl. rewrite enrolled_without_enrollment_iff. tauto.
Qed.

(** The outcome of a sign-up after a sign-up for another pair, in terms of
    the store before both. *)
Lemma signup_after_signup a e a' e' d :
  ¬ (a' = a ∧ e' = e) →
  signup_for_activity a' e' (signup_for_activity a e d).2
  = if decide (activity_exists a' d) then
      if decide (enrolled a' e' d)
      then (inl (HTTPException 400 "Student is already signed up"),
            (signup_for_activity a e d).2)
      else (inr (signed_up_message a' e'),
            with_enrollment a' e' (signup_for_activity a e d).2)
    else (inl (HTTPException 404 "Activity not found"),
          (signup_for_activity a e d).2).
Proof.
  intros Hne. rewrite (signup_cases a' e').
  rewrite (decide_ext _ _ _ _ (activity_exists_after_signup a e a' d)).
  by rewrite (decide_ext _ _ _ _ (enrolled_after_signup_other a e a' e' d Hne)).
Qed.
End independence.

(** X12.  Two Enroll calls for different pairs can be made in either
    order: each call has the same outcome whether it comes first or second,
    and the two final stores have the same activities table and the same
    enrollment rows up to their order; where each pair is stored once they
    have the same List. *)
Theorem signup_commute (a1 e1 a2 e2 : string) (d : db) :
  ¬ (a1 = a2 ∧ e1 = e2) →
  let one := signup_for_activity a1 e1 d in
  let one_two := signup_for_activity a2 e2 one.2 in
  let two := signup_for_activity a2 e2 d in
  let two_one := signup_for_activity a1 e1 two.2 in
  two_one.1 = one.1 ∧
  one_two.1 = two.1 ∧
  tbl_activities one_two.2 = tbl_activities two_one.2 ∧
  tbl_participants one_two.2 ≡ₚ tbl_participants two_one.2 ∧
  (unique_enrollments d →
   (get_activities one_two.2).1 = (get_activities two_one.2).1).
Proof.
  intros Hne; simpl.
  assert (¬ (a2 = a1 ∧ e2 = e1)) as Hne' by (intros [-> ->]; by apply Hne).
  assert (NoDup (tbl_participants d) →
          NoDup (tbl_participants
                   (signup_for_activity a2 e2 (signup_for_activity a1 e1 d).2).2))
    as Hnd by (intros Hd; by do 2 apply NoDup_signup).
  revert Hnd.
  rewrite (signup_after_signup a1 e1 a2 e2 d Hne').
  rewrite (signup_after_signup a2 e2 a1 e1 d Hne).
  rewrite (signup_cases a1 e1 d), (signup_cases a2 e2 d).
  assert (∀ (ps : list participant_row) r1 r2,
            (ps ++ [r1]) ++ [r2] ≡ₚ (ps ++ [r2]) ++ [r1]) as Hswap.
  { intros ps r1 r2. rewrite <-!app_assoc. apply Permutation_app_head.
    simpl. apply Permutation_swap. }
  repeat case_decide; simpl; intros Hnd; split_and!; try done;
    try apply Hswap.
  intros Hu%unique_enrollments_NoDup.
  apply get_activities_perm; [by apply Hnd | done | apply Hswap].
Qed.

Lemma signup_commute_witness :
  (get_activities
     (signup_for_activity "Math Club" "b@mergington.edu"
        (signup_for_activity "Chess Club" "a@mergington.edu" seeded).2).2).1
  = (get_activities
       (signup_for_activity "Chess Club" "a@mergington.edu"
          (signup_for_activity "Math Club" "b@mergington.edu" seeded).2).2).1.
Proof.
  apply (signup_commute "Chess Club" "a@mergington.edu"
           "Math Club" "b@mergington.edu" seeded).
  - apply (bool_decide_unpack _). vm_compute. exact I.
  - apply unique_enrollments_NoDup. apply (bool_decide_unpack _). vm_compute. exact I.
Defined.

(** X13.  Each pair has two states and the calls move one pair only.  When
    the activity is stored, the pair is enrolled after Enroll and not
    enrolled after Withdraw, whatever the outcome of the call; whether any
    other pair is enrolled is the same before and after either call. *)
Theorem pair_state_after_call (a e : string) (d : db) :
  (activity_exists a d →
   enrolled a e (signup_for_activity a e d).2 ∧
   ¬ enrolled a e (unregister_from_activity a e d).2) ∧
  (∀ a' e', ¬ (a' = a ∧ e' = e) →
     (enrolled a' e' (signup_for_activity a e d).2 ↔ enrolled a' e' d) ∧
     (enrolled a' e' (unregister_from_activity a e d).2 ↔ enrolled a' e' d)).
Proof.
  split.
  - intros Ha. rewrite signup_cases, unregister_cases.
    destruct (decide (activity_exists a d)) as [_|]; [|done].
    destruct (decide (enrolled a e d)) as [He|He]; simpl; split; try done.
    + apply not_enrolled_without_enrollment.
    + apply enrolled_with_enrollment.
  - intros a' e' Hne. split.
    + by apply enrolled_after_signup_other.
    + by apply enrolled_after_unregister_other.
Qed.

Lemma pair_state_after_call_witness :
  enrolled "Chess Club" "new@mergington.edu"
    (signup_for_activity "Chess Club" "new@mergington.edu" seeded).2.
Proof.
  destruct (pair_state_after_call "Chess Club" "new@mergington.edu" seeded)
    as [Hstate _].
  apply Hstate. apply (bool_decide_unpack _). vm_compute. exact I.
Defined.

(** X14.  A restart loses nothing: on every reachable store [init_db]
    returns normally and leaves the store, and so List, exactly as it
    was; in particular it does not seed again after every seeded student
    has withdrawn. *)
Theorem restart_keeps_store (d : db) :
  reachable d →
  init_db (file_of d) = (inr (), d) ∧
  (get_activities (init_db (file_of d)).2).1 = (get_activities d).1.
Proof.
  intros Hd.
  assert (init_db (file_of d) = (inr (), d)) as Hsame.
  { apply init_db_nonempty. by rewrite (reachable_activities d Hd). }
  by rewrite Hsame.
Qed.

Lemma restart_keeps_store_witness :
  init_db
    (file_of
       (unregister_from_activity "Chess Club" "daniel@mergington.edu"
          (init_db no_file).2).2)
  = (inr (),
     (unregister_from_activity "Chess Club" "daniel@mergington.edu"
        (init_db no_file).2).2).
Proof.
  apply (restart_keeps_store
           (unregister_from_activity "Chess Club" "daniel@mergington.edu"
              (init_db no_file).2).2).
  apply reachable_unregister, reachable_first_start.
Defined.
